(** * RosAlloc: the runs-of-slots allocator of ART (runtime/gc/allocator/rosalloc.h)

    A shallow embedding of the inline part of [class RosAlloc]: the size
    classifier ([IndexToBracketSize], [BracketSizeToIndex],
    [RoundToBracketSize], [SizeToIndex], [SizeToIndexAndBracketSize],
    [UsableSize]), the page-map indices ([ToPageMapIndex],
    [RoundDownToPageMapIndex]) and the methods of [RosAlloc::FreePageRun]
    ([IsFree], [ByteSize], [SetByteSize], [ShouldReleasePages],
    [ReleasePages]).

    Conventions.
    - [size_t] and pointers are integers of [size_bits] bits, held in [Z]
      with the wrap-around written out ([to_size_t]).
    - A failed [DCHECK]/[LOG(FATAL)] aborts the process: [Err CheckFailed].
      Indexing a vector or an array outside its bounds is undefined in C++:
      [Err OutOfBounds].
    - [DCHECK]s are compiled in exactly when [kIsDebugBuild] holds. *)

From Stdlib Require Import ZArith Bool Lia List.
From stdpp Require Import base list.
Import ListNotations.

Local Open Scope Z_scope.

(** ** Outcomes of a call *)

Inductive error : Type :=
| CheckFailed   (* CHECK, DCHECK or LOG(FATAL) *)
| OutOfBounds.  (* operator[] outside the container *)

Inductive outcome (A : Type) : Type :=
| Ok (a : A)
| Err (e : error).

Arguments Ok {A} a.
Arguments Err {A} e.

#[global] Instance outcome_ret : MRet outcome := fun A a => Ok a.

#[global] Instance outcome_bind : MBind outcome := fun A B k c =>
  match c with
  | Ok a => k a
  | Err e => Err e
  end.

#[global] Instance outcome_fmap : FMap outcome := fun A B f c =>
  match c with
  | Ok a => Ok (f a)
  | Err e => Err e
  end.

(** Linear arithmetic with division and remainder by constants. *)
Ltac div_lia := Z.to_euclidean_division_equations; lia.

Definition CHECK (b : bool) : outcome unit :=
  if b then Ok tt else Err CheckFailed.

(** [v[i]] for a [std::vector] or a C array. *)
Definition at_index (v : list Z) (i : Z) : outcome Z :=
  if (0 <=? i) && (i <? Z.of_nat (length v))
  then match v !! Z.to_nat i with
       | Some x => Ok x
       | None => Err OutOfBounds
       end
  else Err OutOfBounds.

(** [v[i] = x]. *)
Definition set_index (v : list Z) (i : Z) (x : Z) : outcome (list Z) :=
  if (0 <=? i) && (i <? Z.of_nat (length v))
  then Ok (<[Z.to_nat i := x]> v)
  else Err OutOfBounds.

(** ** Constants *)

(** Modelled from the spec: [KB] is a constant of globals.h, which is not
    under src/.  The spec gives the brackets the code writes as [1 * KB] and
    [2 * KB] as 1024 and 2048 bytes. *)
Definition KB : Z := 1024.

(** The constants of rosalloc.h. *)

Definition kMagicNum : Z := 42.
Definition kMagicNumFree : Z := 43.
Definition kNumOfSizeBrackets : Z := 34.
Definition kNumOfQuantumSizeBrackets : Z := 32.
Definition kLargeSizeThreshold : Z := 2048.
Definition kMaxThreadLocalSizeBracketIdx : Z := 10.

(** Modelled from the spec: [bracketSizes] is filled by [RosAlloc::Initialize]
    in rosalloc.cc, which is not under src/.  The spec gives the table:
    brackets 0..31 are 16, 32, ..., 512 bytes, brackets 32 and 33 are 1024
    and 2048 bytes. *)
Definition bracketSizes : list Z :=
  ((fun i => 16 * (Z.of_nat i + 1)) <$> seq 0 (Z.to_nat kNumOfQuantumSizeBrackets))
  ++ [1 * KB; 2 * KB].

Inductive PageReleaseMode : Type :=
| kPageReleaseModeNone
| kPageReleaseModeEnd
| kPageReleaseModeSize
| kPageReleaseModeSizeAndEnd
| kPageReleaseModeAll.

#[global] Instance PageReleaseMode_eq_dec : EqDecision PageReleaseMode.
Proof. solve_decision. Defined.

(** The fields of [RosAlloc] that the inline methods use. *)
Record RosAlloc : Type := {
  base_ : Z;
  footprint_ : Z;
  capacity_ : Z;
  free_page_run_size_map_ : list Z;
  page_release_mode_ : PageReleaseMode;
  page_release_size_threshold_ : Z
}.

(** The state the methods run in: the allocator object, the contents of
    the address space (one byte per address) and the [madvise] calls
    issued so far, oldest first, as (start, length). *)
Record State : Type := {
  rosalloc : RosAlloc;
  memory : Z -> Z;
  madvise_calls : list (Z * Z)
}.

Definition with_memory (st : State) (m : Z -> Z) : State :=
  {| rosalloc := rosalloc st; memory := m; madvise_calls := madvise_calls st |}.

Definition with_size_map (r : RosAlloc) (v : list Z) : RosAlloc :=
  {| base_ := base_ r;
     footprint_ := footprint_ r;
     capacity_ := capacity_ r;
     free_page_run_size_map_ := v;
     page_release_mode_ := page_release_mode_ r;
     page_release_size_threshold_ := page_release_size_threshold_ r |}.

(** The same heap under another page release mode (the mode is a
    constructor argument of [RosAlloc]). *)
Definition with_mode (st : State) (mode : PageReleaseMode) : State :=
  {| rosalloc :=
       {| base_ := base_ (rosalloc st);
          footprint_ := footprint_ (rosalloc st);
          capacity_ := capacity_ (rosalloc st);
          free_page_run_size_map_ := free_page_run_size_map_ (rosalloc st);
          page_release_mode_ := mode;
          page_release_size_threshold_ := page_release_size_threshold_ (rosalloc st) |};
     memory := memory st;
     madvise_calls := madvise_calls st |}.

Definition DoesReleaseAllPages (r : RosAlloc) : bool :=
  bool_decide (page_release_mode_ r = kPageReleaseModeAll).

(** Modelled from the spec: [madvise(start, len, MADV_DONTNEED)] is the
    kernel's.  The spec says it discards the physical backing of the advised
    pages; for the anonymous mapping the allocator manages, the bytes of
    [start, start + len) read as zero afterwards and no other byte changes. *)
Definition madvise (st : State) (start len : Z) : State :=
  {| rosalloc := rosalloc st;
     memory := fun a => if (start <=? a) && (a <? start + len) then 0 else memory st a;
     madvise_calls := madvise_calls st ++ [(start, len)] |}.

(** ** A small heap to run the methods on

    Sixteen pages reserved at 1 GiB, eight of them in the footprint.  Page 2
    is a free run of one page; pages 4 to 7 are a free run of four pages that
    ends at the footprint.  The first byte of every page holds the magic
    number of a free page run. *)

Definition example_rosalloc (mode : PageReleaseMode) : RosAlloc :=
  {| base_ := 0x40000000;
     footprint_ := 0x8000;
     capacity_ := 0x10000;
     free_page_run_size_map_ := [0; 0; 0x1000; 0; 0x4000; 0; 0; 0; 0; 0; 0; 0; 0; 0; 0; 0];
     page_release_mode_ := mode;
     page_release_size_threshold_ := 0x2000 |}.

Definition example_state (mode : PageReleaseMode) : State :=
  {| rosalloc := example_rosalloc mode;
     memory := fun a => if a mod 0x1000 =? 0 then kMagicNumFree else 0;
     madvise_calls := [] |}.

Definition example_run_1 : Z := 0x40002000.
Definition example_run_4 : Z := 0x40004000.

Section Build.

(** The build: the width of [size_t] (and of a pointer), the page size
    of globals.h and whether this is a debug build. *)
Variable size_bits : Z.
Variable kPageSize : Z.
Variable kIsDebugBuild : bool.

Definition to_size_t (z : Z) : Z := z mod 2 ^ size_bits.

Definition is_size_t (z : Z) : Prop := 0 <= z < 2 ^ size_bits.

Definition DCHECK (b : bool) : outcome unit :=
  if kIsDebugBuild then CHECK b else Ok tt.

(** [DCHECK_EQ(x, f(...))] where the right-hand side is a call that is
    only made when DCHECKs are compiled in. *)
Definition DCHECK_EQ_call (x : Z) (c : outcome Z) : outcome unit :=
  if kIsDebugBuild then (y ← c; CHECK (x =? y)) else Ok tt.

(** Modelled from the spec: [RoundDown] and [RoundUp] are templates of
    utils.h, which is not under src/.  The spec uses [RoundUp(x, n)] for
    the next multiple of [n]; ART computes it on [size_t] as
    [RoundDown(x + n - 1, n)] with [RoundDown(x, n) = x & -n]
    ([n] an [int], converted to [size_t]). *)
Definition RoundDown (x n : Z) : Z := Z.land x (to_size_t (- n)).

(** Modelled from the spec: see [RoundDown]; the sum and the difference of
    [x + n - 1] wrap as [size_t] does. *)
Definition RoundUp (x n : Z) : Z := RoundDown (to_size_t (to_size_t (x + n) - 1)) n.

(** *** The size classifier *)

Definition IndexToBracketSize (idx : Z) : outcome Z :=
  DCHECK (idx <? kNumOfSizeBrackets);;
  at_index bracketSizes idx.

Definition BracketSizeToIndex (size : Z) : outcome Z :=
  DCHECK ((16 <=? size)
          && (((size <? 1 * KB) && (size mod 16 =? 0))
              || (size =? 1 * KB) || (size =? 2 * KB)));;
  idx ← (if size =? 1 * KB then
           Ok (kNumOfSizeBrackets - 2)
         else if size =? 2 * KB then
           Ok (kNumOfSizeBrackets - 1)
         else
           DCHECK (size <? 1 * KB);;
           DCHECK (size mod 16 =? 0);;
           Ok (to_size_t (size / 16 - 1)));
  DCHECK_EQ_call size (at_index bracketSizes idx);;
  Ok idx.

Definition RoundToBracketSize (size : Z) : outcome Z :=
  DCHECK (size <=? kLargeSizeThreshold);;
  if size <=? 512 then
    Ok (RoundUp size 16)
  else if (512 <? size) && (size <=? 1 * KB) then
    Ok (1 * KB)
  else
    DCHECK ((1 * KB <? size) && (size <=? 2 * KB));;
    Ok (2 * KB).

Definition SizeToIndex (size : Z) : outcome Z :=
  DCHECK (size <=? kLargeSizeThreshold);;
  if size <=? 512 then
    Ok (to_size_t (RoundUp size 16 / 16 - 1))
  else if (512 <? size) && (size <=? 1 * KB) then
    Ok (kNumOfSizeBrackets - 2)
  else
    DCHECK ((1 * KB <? size) && (size <=? 2 * KB));;
    Ok (kNumOfSizeBrackets - 1).

(** The result is the pair (returned index, value stored through
    [bracket_size_out]). *)
Definition SizeToIndexAndBracketSize (size : Z) : outcome (Z * Z) :=
  DCHECK (size <=? kLargeSizeThreshold);;
  if size <=? 512 then
    let bracket_size := RoundUp size 16 in
    let idx := to_size_t (bracket_size / 16 - 1) in
    DCHECK_EQ_call bracket_size (IndexToBracketSize idx);;
    Ok (idx, bracket_size)
  else if (512 <? size) && (size <=? 1 * KB) then
    let bracket_size := 1024 in
    let idx := kNumOfSizeBrackets - 2 in
    DCHECK_EQ_call bracket_size (IndexToBracketSize idx);;
    Ok (idx, bracket_size)
  else
    DCHECK ((1 * KB <? size) && (size <=? 2 * KB));;
    let bracket_size := 2048 in
    let idx := kNumOfSizeBrackets - 1 in
    DCHECK_EQ_call bracket_size (IndexToBracketSize idx);;
    Ok (idx, bracket_size).

Definition UsableSize (bytes : Z) : outcome Z :=
  if bytes >? kLargeSizeThreshold then
    Ok (RoundUp bytes kPageSize)
  else
    RoundToBracketSize bytes.

(** *** Page-map indices *)

(** [p + n] on a [byte*]. *)
Definition ptr_add (p n : Z) : Z := to_size_t (p + n).

Definition ToPageMapIndex (r : RosAlloc) (addr : Z) : outcome Z :=
  DCHECK ((base_ r <=? addr) && (addr <? ptr_add (base_ r) (capacity_ r)));;
  let byte_offset := to_size_t (addr - base_ r) in
  DCHECK (byte_offset mod kPageSize =? 0);;
  Ok (byte_offset / kPageSize).

Definition RoundDownToPageMapIndex (r : RosAlloc) (addr : Z) : outcome Z :=
  DCHECK ((base_ r <=? addr) && (addr <? ptr_add (base_ r) (capacity_ r)));;
  Ok (to_size_t (to_size_t addr - to_size_t (base_ r)) / kPageSize).

(** *** [class FreePageRun]

    A free page run is the address [this] of its first byte; its only
    field, [magic_num_], is the byte stored there. *)

Definition magic_num_ (st : State) (this : Z) : Z := memory st this.

Definition IsFree (st : State) (this : Z) : bool :=
  if kIsDebugBuild then magic_num_ st this =? kMagicNumFree else true.

Definition ByteSize (st : State) (this : Z) : outcome Z :=
  let fpr_base := this in
  pm_idx ← ToPageMapIndex (rosalloc st) fpr_base;
  byte_size ← at_index (free_page_run_size_map_ (rosalloc st)) pm_idx;
  DCHECK (byte_size >=? 0);;
  DCHECK (byte_size mod kPageSize =? 0);;
  Ok byte_size.

Definition SetByteSize (st : State) (this : Z) (byte_size : Z) : outcome State :=
  DCHECK (byte_size mod kPageSize =? 0);;
  let fpr_base := this in
  pm_idx ← ToPageMapIndex (rosalloc st) fpr_base;
  v ← set_index (free_page_run_size_map_ (rosalloc st)) pm_idx byte_size;
  Ok {| rosalloc := with_size_map (rosalloc st) v;
        memory := memory st;
        madvise_calls := madvise_calls st |}.

Definition Begin (this : Z) : Z := this.

Definition End (st : State) (this : Z) : outcome Z :=
  let fpr_base := this in
  byte_size ← ByteSize st this;
  Ok (ptr_add fpr_base byte_size).

Definition IsLargerThanPageReleaseThreshold (st : State) (this : Z) : outcome bool :=
  byte_size ← ByteSize st this;
  Ok (byte_size >=? page_release_size_threshold_ (rosalloc st)).

Definition IsAtEndOfSpace (st : State) (this : Z) : outcome bool :=
  byte_size ← ByteSize st this;
  Ok (ptr_add this byte_size
      =? ptr_add (base_ (rosalloc st)) (footprint_ (rosalloc st))).

Definition ShouldReleasePages (st : State) (this : Z) : outcome bool :=
  match page_release_mode_ (rosalloc st) with
  | kPageReleaseModeNone => Ok false
  | kPageReleaseModeEnd => IsAtEndOfSpace st this
  | kPageReleaseModeSize => IsLargerThanPageReleaseThreshold st this
  | kPageReleaseModeSizeAndEnd =>
      larger ← IsLargerThanPageReleaseThreshold st this;
      if (larger : bool) then IsAtEndOfSpace st this else Ok false
  | kPageReleaseModeAll => Ok true
  end.

Definition ReleasePages (st : State) (this : Z) : outcome State :=
  let start := this in
  byte_size ← ByteSize st this;
  DCHECK (byte_size mod kPageSize =? 0);;
  release_pages ← ShouldReleasePages st this;
  if kIsDebugBuild then
    (DCHECK (byte_size >=? kPageSize);;
     let start := ptr_add start kPageSize in
     let byte_size := to_size_t (byte_size - kPageSize) in
     if byte_size >? 0 then
       if (release_pages : bool) then Ok (madvise st start byte_size) else Ok st
     else Ok st)
  else
    if (release_pages : bool) then Ok (madvise st start byte_size) else Ok st.

(** ** Properties *)

(** Decide the comparisons of a goal from the arithmetic context. *)
Ltac branches :=
  unfold KB, kLargeSizeThreshold in *;
  repeat match goal with
    | |- context [?a <=? ?b] => destruct (Z.leb_spec a b); try lia
    | |- context [?a <? ?b] => destruct (Z.ltb_spec a b); try lia
    | |- context [?a >? ?b] => rewrite (Z.gtb_ltb a b)
    end;
  simpl.

Lemma bind_Ok_inv {A B : Type} (c : outcome A) (k : A -> outcome B) (b : B) :
  c ≫= k = Ok b -> exists a, c = Ok a /\ k a = Ok b.
Proof using Type. destruct c as [a|e]; simpl; [eauto | discriminate]. Qed.

Lemma to_size_t_id z : is_size_t z -> to_size_t z = z.
Proof using Type. unfold is_size_t, to_size_t. intros H. apply Z.mod_small. exact H. Qed.

Lemma neg_pow2_lnot k : 0 <= k -> - 2 ^ k = Z.lnot (Z.ones k).
Proof using Type. intros Hk. rewrite Z.ones_equiv. unfold Z.lnot. lia. Qed.

Lemma DCHECK_pass b : b = true -> DCHECK b = Ok tt.
Proof using Type. intros ->. unfold DCHECK. destruct kIsDebugBuild; reflexivity. Qed.

Lemma at_index_quantum idx :
  0 <= idx < kNumOfQuantumSizeBrackets ->
  at_index bracketSizes idx = Ok (16 * (idx + 1)).
Proof using Type.
  intros H. unfold kNumOfQuantumSizeBrackets in H. unfold at_index.
  replace ((0 <=? idx) && (idx <? Z.of_nat (length bracketSizes))) with true
    by (symmetry; apply andb_true_iff; split;
        [apply Z.leb_le; lia | apply Z.ltb_lt; change (idx < 34); lia]).
  unfold bracketSizes. rewrite lookup_app_l.
  - rewrite list_lookup_fmap, lookup_seq_lt.
    + simpl. rewrite Z2Nat.id by lia. reflexivity.
    + change (Z.to_nat kNumOfQuantumSizeBrackets) with 32%nat. lia.
  - rewrite length_fmap, length_seq.
    change (Z.to_nat kNumOfQuantumSizeBrackets) with 32%nat. lia.
Qed.

Lemma IndexToBracketSize_quantum idx :
  0 <= idx < kNumOfQuantumSizeBrackets ->
  IndexToBracketSize idx = Ok (16 * (idx + 1)).
Proof using Type.
  intros H. unfold IndexToBracketSize.
  rewrite DCHECK_pass
    by (apply Z.ltb_lt; unfold kNumOfQuantumSizeBrackets, kNumOfSizeBrackets in *; lia).
  simpl. apply at_index_quantum, H.
Qed.

Lemma IndexToBracketSize_1KB :
  IndexToBracketSize (kNumOfSizeBrackets - 2) = Ok 1024.
Proof using Type. unfold IndexToBracketSize, DCHECK. destruct kIsDebugBuild; reflexivity. Qed.

Lemma IndexToBracketSize_2KB :
  IndexToBracketSize (kNumOfSizeBrackets - 1) = Ok 2048.
Proof using Type. unfold IndexToBracketSize, DCHECK. destruct kIsDebugBuild; reflexivity. Qed.

Lemma DCHECK_EQ_call_pass x c : c = Ok x -> DCHECK_EQ_call x c = Ok tt.
Proof using Type.
  intros ->. unfold DCHECK_EQ_call. destruct kIsDebugBuild; [|reflexivity].
  simpl. unfold CHECK. rewrite Z.eqb_refl. reflexivity.
Qed.

Lemma RoundToBracketSize_1KB size :
  512 < size <= 1024 -> RoundToBracketSize size = Ok 1024.
Proof using Type.
  intros H. unfold RoundToBracketSize.
  rewrite (DCHECK_pass (size <=? kLargeSizeThreshold))
    by (apply Z.leb_le; unfold kLargeSizeThreshold; lia).
  branches. reflexivity.
Qed.

Lemma RoundToBracketSize_2KB size :
  1024 < size <= 2048 -> RoundToBracketSize size = Ok 2048.
Proof using Type.
  intros H. unfold RoundToBracketSize.
  rewrite (DCHECK_pass (size <=? kLargeSizeThreshold))
    by (apply Z.leb_le; unfold kLargeSizeThreshold; lia).
  branches. rewrite DCHECK_pass by reflexivity. reflexivity.
Qed.

Lemma SizeToIndex_1KB size :
  512 < size <= 1024 -> SizeToIndex size = Ok (kNumOfSizeBrackets - 2).
Proof using Type.
  intros H. unfold SizeToIndex.
  rewrite (DCHECK_pass (size <=? kLargeSizeThreshold))
    by (apply Z.leb_le; unfold kLargeSizeThreshold; lia).
  branches. reflexivity.
Qed.

Lemma SizeToIndex_2KB size :
  1024 < size <= 2048 -> SizeToIndex size = Ok (kNumOfSizeBrackets - 1).
Proof using Type.
  intros H. unfold SizeToIndex.
  rewrite (DCHECK_pass (size <=? kLargeSizeThreshold))
    by (apply Z.leb_le; unfold kLargeSizeThreshold; lia).
  branches. rewrite DCHECK_pass by reflexivity. reflexivity.
Qed.

Lemma SizeToIndexAndBracketSize_1KB size :
  512 < size <= 1024 ->
  SizeToIndexAndBracketSize size = Ok (kNumOfSizeBrackets - 2, 1024).
Proof using Type.
  intros H. unfold SizeToIndexAndBracketSize.
  rewrite (DCHECK_pass (size <=? kLargeSizeThreshold))
    by (apply Z.leb_le; unfold kLargeSizeThreshold; lia).
  branches.
  rewrite DCHECK_EQ_call_pass by apply IndexToBracketSize_1KB. reflexivity.
Qed.

Lemma SizeToIndexAndBracketSize_2KB size :
  1024 < size <= 2048 ->
  SizeToIndexAndBracketSize size = Ok (kNumOfSizeBrackets - 1, 2048).
Proof using Type.
  intros H. unfold SizeToIndexAndBracketSize.
  rewrite (DCHECK_pass (size <=? kLargeSizeThreshold))
    by (apply Z.leb_le; unfold kLargeSizeThreshold; lia).
  branches. rewrite DCHECK_pass by reflexivity.
  rewrite DCHECK_EQ_call_pass by apply IndexToBracketSize_2KB. reflexivity.
Qed.

Lemma round_up_bounds x n :
  0 < n ->
  (n * ((x + n - 1) / n)) mod n = 0
  /\ x <= n * ((x + n - 1) / n) < x + n.
Proof using Type.
  intros Hn. split.
  - rewrite Z.mul_comm. apply Z.mod_mul. lia.
  - pose proof (Z.div_mod (x + n - 1) n ltac:(lia)) as E.
    pose proof (Z.mod_pos_bound (x + n - 1) n Hn) as B. lia.
Qed.

Lemma IsLargerThanPageReleaseThreshold_eq st this byte_size :
  ByteSize st this = Ok byte_size ->
  IsLargerThanPageReleaseThreshold st this
  = Ok (byte_size >=? page_release_size_threshold_ (rosalloc st)).
Proof using Type. intros H. unfold IsLargerThanPageReleaseThreshold. rewrite H. reflexivity. Qed.

Lemma IsAtEndOfSpace_eq st this byte_size :
  ByteSize st this = Ok byte_size ->
  IsAtEndOfSpace st this
  = Ok (ptr_add this byte_size
        =? ptr_add (base_ (rosalloc st)) (footprint_ (rosalloc st))).
Proof using Type. intros H. unfold IsAtEndOfSpace. rewrite H. reflexivity. Qed.

Lemma ShouldReleasePages_total st this byte_size :
  ByteSize st this = Ok byte_size ->
  exists b, ShouldReleasePages st this = Ok b.
Proof using Type.
  intros H. unfold ShouldReleasePages.
  rewrite (IsLargerThanPageReleaseThreshold_eq _ _ _ H), (IsAtEndOfSpace_eq _ _ _ H).
  destruct (page_release_mode_ (rosalloc st)); simpl; eauto.
  destruct (byte_size >=? _); eauto.
Qed.

(** C1.  [ShouldReleasePages] follows the page release mode: never for
    None, always for All, and for a run of [byte_size] bytes: for End
    exactly when the run ends at [base_ + footprint_], for Size exactly
    when [byte_size >= page_release_size_threshold_], for SizeAndEnd
    exactly when both hold. *)
Theorem ShouldReleasePages_policy st this :
  (page_release_mode_ (rosalloc st) = kPageReleaseModeNone ->
   ShouldReleasePages st this = Ok false)
  /\ (page_release_mode_ (rosalloc st) = kPageReleaseModeAll ->
      ShouldReleasePages st this = Ok true)
  /\ forall byte_size, ByteSize st this = Ok byte_size ->
     exists b end_,
       ShouldReleasePages st this = Ok b
       /\ End st this = Ok end_
       /\ let at_end :=
            end_ = ptr_add (base_ (rosalloc st)) (footprint_ (rosalloc st)) in
          let larger :=
            byte_size >= page_release_size_threshold_ (rosalloc st) in
          match page_release_mode_ (rosalloc st) with
          | kPageReleaseModeNone => b = false
          | kPageReleaseModeEnd => b = true <-> at_end
          | kPageReleaseModeSize => b = true <-> larger
          | kPageReleaseModeSizeAndEnd => b = true <-> larger /\ at_end
          | kPageReleaseModeAll => b = true
          end.
Proof using Type.
  split; [|split].
  - intros E. unfold ShouldReleasePages. rewrite E. reflexivity.
  - intros E. unfold ShouldReleasePages. rewrite E. reflexivity.
  - intros byte_size H.
    unfold ShouldReleasePages, End.
    rewrite (IsLargerThanPageReleaseThreshold_eq _ _ _ H), (IsAtEndOfSpace_eq _ _ _ H), H.
    simpl.
    set (e := ptr_add this byte_size).
    set (f := ptr_add (base_ (rosalloc st)) (footprint_ (rosalloc st))).
    set (t := page_release_size_threshold_ (rosalloc st)).
    assert (He : (e =? f) = true <-> e = f) by apply Z.eqb_eq.
    assert (Ht : (byte_size >=? t) = true <-> byte_size >= t).
    { rewrite Z.geb_leb, Z.leb_le. lia. }
    destruct (page_release_mode_ (rosalloc st)); simpl.
    + exists false, e. auto.
    + exists (e =? f), e. auto.
    + exists (byte_size >=? t), e. auto.
    + destruct (byte_size >=? t) eqn:Hl.
      * exists (e =? f), e. split; [reflexivity|]. split; [reflexivity|].
        rewrite He. intuition.
      * exists false, e. split; [reflexivity|]. split; [reflexivity|].
        split; [discriminate|]. intros [Hge _]. apply Ht in Hge. discriminate.
    + exists true, e. auto.
Qed.

Lemma at_index_insert (v : list Z) idx x :
  0 <= idx < Z.of_nat (length v) ->
  at_index (<[Z.to_nat idx := x]> v) idx = Ok x.
Proof using Type.
  intros H. unfold at_index. rewrite length_insert.
  replace ((0 <=? idx) && (idx <? Z.of_nat (length v))) with true
    by (symmetry; apply andb_true_iff; split;
        [apply Z.leb_le | apply Z.ltb_lt]; lia).
  rewrite list_lookup_insert_eq by lia. reflexivity.
Qed.

(** What a debug build has checked once [ByteSize] returns. *)
Lemma ByteSize_debug_inv st this byte_size :
  kIsDebugBuild = true ->
  ByteSize st this = Ok byte_size ->
  0 <= byte_size /\ byte_size mod kPageSize = 0.
Proof using Type.
  intros Hdbg H. unfold ByteSize in H.
  apply bind_Ok_inv in H as (pm_idx & _ & H).
  apply bind_Ok_inv in H as (x & _ & H).
  apply bind_Ok_inv in H as ([] & Hge & H).
  apply bind_Ok_inv in H as ([] & Hal & H).
  injection H as Hx. subst x.
  unfold DCHECK, CHECK in Hge, Hal. rewrite Hdbg in Hge, Hal.
  destruct (Z.geb_spec byte_size 0); [|discriminate].
  destruct (Z.eqb_spec (byte_size mod kPageSize) 0); [|discriminate].
  split; [lia | assumption].
Qed.

(** The bytes [madvise] leaves alone. *)
Lemma madvise_memory_outside st start len a :
  a < start \/ start + len <= a ->
  memory (madvise st start len) a = memory st a.
Proof using Type.
  intros H. simpl.
  destruct (Z.leb_spec start a); destruct (Z.ltb_spec a (start + len));
    simpl; try reflexivity; lia.
Qed.

(** *** More on free page runs, in any build *)

Lemma ShouldReleasePages_with_mode st this byte_size mode :
  ByteSize st this = Ok byte_size ->
  ShouldReleasePages (with_mode st mode) this
  = Ok (match mode with
        | kPageReleaseModeNone => false
        | kPageReleaseModeEnd =>
            ptr_add this byte_size
            =? ptr_add (base_ (rosalloc st)) (footprint_ (rosalloc st))
        | kPageReleaseModeSize =>
            byte_size >=? page_release_size_threshold_ (rosalloc st)
        | kPageReleaseModeSizeAndEnd =>
            (byte_size >=? page_release_size_threshold_ (rosalloc st))
            && (ptr_add this byte_size
                =? ptr_add (base_ (rosalloc st)) (footprint_ (rosalloc st)))
        | kPageReleaseModeAll => true
        end).
Proof using Type.
  intros H.
  assert (H' : ByteSize (with_mode st mode) this = Ok byte_size) by exact H.
  unfold ShouldReleasePages.
  rewrite (IsLargerThanPageReleaseThreshold_eq _ _ _ H'), (IsAtEndOfSpace_eq _ _ _ H').
  destruct mode; simpl; try reflexivity.
  destruct (byte_size >=? _); reflexivity.
Qed.

(** X1.  The page release modes are ordered: on the same heap a run is
    released under SizeAndEnd exactly when it is released under Size and
    under End, never under None and always under All, which is the mode
    [DoesReleaseAllPages] reports. *)
Theorem ShouldReleasePages_modes st this byte_size :
  ByteSize st this = Ok byte_size ->
  exists larger at_end,
    ShouldReleasePages (with_mode st kPageReleaseModeSize) this = Ok larger
    /\ ShouldReleasePages (with_mode st kPageReleaseModeEnd) this = Ok at_end
    /\ ShouldReleasePages (with_mode st kPageReleaseModeSizeAndEnd) this
       = Ok (larger && at_end)
    /\ ShouldReleasePages (with_mode st kPageReleaseModeNone) this = Ok false
    /\ ShouldReleasePages (with_mode st kPageReleaseModeAll) this = Ok true
    /\ (forall mode,
          DoesReleaseAllPages (rosalloc (with_mode st mode)) = true <->
          mode = kPageReleaseModeAll).
Proof using Type.
  intros H. eexists _, _.
  rewrite !(ShouldReleasePages_with_mode _ _ _ _ H).
  repeat (split; [reflexivity|]).
  intros mode. unfold DoesReleaseAllPages. simpl. apply bool_decide_eq_true.
Qed.

(** X2.  Whatever the build, [ReleasePages] leaves the allocator object as
    it was and issues at most one [madvise]; the size of the run reads the
    same afterwards. *)
Theorem ReleasePages_keeps_allocator st this st' :
  ReleasePages st this = Ok st' ->
  rosalloc st' = rosalloc st
  /\ (st' = st \/ exists start len, st' = madvise st start len)
  /\ ByteSize st' this = ByteSize st this
  /\ (length (madvise_calls st') <= length (madvise_calls st) + 1)%nat.
Proof using Type.
  intros H. unfold ReleasePages in H.
  apply bind_Ok_inv in H as (byte_size & _ & H).
  apply bind_Ok_inv in H as ([] & _ & H).
  apply bind_Ok_inv in H as (b & _ & H).
  assert (Hcases : st' = st \/ exists start len, st' = madvise st start len).
  { destruct kIsDebugBuild.
    - apply bind_Ok_inv in H as ([] & _ & H).
      destruct (_ >? 0); [destruct b|]; injection H as <-; eauto.
    - destruct b; injection H as <-; eauto. }
  destruct Hcases as [->|(start & len & ->)].
  - repeat split; auto. lia.
  - repeat split; eauto. simpl. rewrite length_app. simpl. lia.
Qed.

(** X3.  Under [kPageReleaseModeNone] [ReleasePages] never advises the
    kernel, in either build: for a run with a recorded size (of at least
    one page in a debug build) it returns the state it started from. *)
Theorem ReleasePages_mode_None st this byte_size :
  page_release_mode_ (rosalloc st) = kPageReleaseModeNone ->
  ByteSize st this = Ok byte_size ->
  (kIsDebugBuild = true -> kPageSize <= byte_size) ->
  ReleasePages st this = Ok st.
Proof using Type.
  intros Hmode H Hpage.
  unfold ReleasePages. rewrite H. simpl.
  unfold ShouldReleasePages. rewrite Hmode.
  destruct kIsDebugBuild eqn:Hdbg.
  - destruct (ByteSize_debug_inv _ _ _ Hdbg H) as [_ Hal].
    unfold DCHECK, CHECK. rewrite Hdbg, Hal. simpl.
    rewrite Z.geb_leb.
    destruct (Z.leb_spec kPageSize byte_size); [|specialize (Hpage eq_refl); lia].
    simpl. destruct (_ >? 0); reflexivity.
  - unfold DCHECK. rewrite Hdbg. reflexivity.
Qed.


(** X5.  In a debug build a run whose recorded size is below one page
    stops [ReleasePages] at its DCHECK, before any [madvise]. *)
Theorem ReleasePages_debug_below_one_page st this byte_size :
  kIsDebugBuild = true ->
  ByteSize st this = Ok byte_size ->
  byte_size < kPageSize ->
  ReleasePages st this = Err CheckFailed.
Proof using Type.
  intros Hdbg H Hlt.
  destruct (ByteSize_debug_inv _ _ _ Hdbg H) as [_ Hal].
  destruct (ShouldReleasePages_total _ _ _ H) as [b Hb].
  unfold ReleasePages. rewrite H. simpl.
  rewrite (DCHECK_pass (byte_size mod kPageSize =? 0)) by (apply Z.eqb_eq, Hal).
  simpl. rewrite Hb. simpl. rewrite Hdbg.
  unfold DCHECK, CHECK. rewrite Hdbg. rewrite Z.geb_leb.
  destruct (Z.leb_spec kPageSize byte_size); [lia | reflexivity].
Qed.

(** X6.  A run whose page-map index lies past the end of
    [free_page_run_size_map_] has no size: reading it and writing it are
    both out of bounds. *)
Theorem ByteSize_out_of_bounds st this pm_idx byte_size :
  ToPageMapIndex (rosalloc st) this = Ok pm_idx ->
  Z.of_nat (length (free_page_run_size_map_ (rosalloc st))) <= pm_idx ->
  byte_size mod kPageSize = 0 ->
  ByteSize st this = Err OutOfBounds
  /\ SetByteSize st this byte_size = Err OutOfBounds.
Proof using Type.
  intros Hidx Hlen Hal.
  assert (Hout : (0 <=? pm_idx)
                 && (pm_idx <? Z.of_nat (length (free_page_run_size_map_ (rosalloc st))))
                 = false).
  { apply andb_false_iff. right. apply Z.ltb_ge. exact Hlen. }
  split.
  - unfold ByteSize. rewrite Hidx. simpl. unfold at_index. rewrite Hout. reflexivity.
  - unfold SetByteSize.
    rewrite DCHECK_pass by (apply Z.eqb_eq, Hal). simpl.
    rewrite Hidx. simpl. unfold set_index. rewrite Hout. reflexivity.
Qed.

(** *** With a [size_t] of at least 32 bits

    ART builds for 32- and 64-bit targets. *)
Hypothesis size_bits_ge : 32 <= size_bits.

Lemma size_max_ge : 2 ^ 32 <= 2 ^ size_bits.
Proof using size_bits_ge. apply Z.pow_le_mono_r; lia. Qed.

Lemma to_size_t_range z : is_size_t (to_size_t z).
Proof using size_bits_ge.
  unfold is_size_t, to_size_t. apply Z.mod_pos_bound.
  pose proof size_max_ge. lia.
Qed.

Lemma to_size_t_minus_1 : to_size_t (- 1) = 2 ^ size_bits - 1.
Proof using size_bits_ge.
  pose proof size_max_ge. unfold to_size_t.
  rewrite <- (Z.mod_add _ 1) by lia.
  rewrite Z.mod_small by lia. lia.
Qed.

Lemma RoundDown_pow2 x k :
  0 <= k -> is_size_t x -> RoundDown x (2 ^ k) = 2 ^ k * (x / 2 ^ k).
Proof using size_bits_ge.
  intros Hk Hx. unfold RoundDown, to_size_t.
  assert (Hw : 0 <= size_bits) by lia.
  rewrite <- (Z.land_ones _ size_bits Hw).
  rewrite Z.land_comm, <- Z.land_assoc, (Z.land_comm (Z.ones size_bits)).
  rewrite (Z.land_ones x size_bits Hw).
  rewrite (Z.mod_small x) by exact Hx.
  rewrite Z.land_comm, (neg_pow2_lnot k Hk), <- Z.ldiff_land.
  rewrite Z.ldiff_ones_r by exact Hk.
  rewrite Z.shiftr_div_pow2, Z.shiftl_mul_pow2 by exact Hk.
  apply Z.mul_comm.
Qed.

Lemma RoundUp_pow2 x k :
  0 <= k -> 0 <= x -> x + 2 ^ k - 1 < 2 ^ size_bits ->
  RoundUp x (2 ^ k) = 2 ^ k * ((x + 2 ^ k - 1) / 2 ^ k).
Proof using size_bits_ge.
  intros Hk Hx Hno. unfold RoundUp.
  assert (0 < 2 ^ k) by (apply Z.pow_pos_nonneg; lia).
  pose proof size_max_ge as Hm.
  unfold to_size_t at 1 2. rewrite Zminus_mod_idemp_l.
  fold (to_size_t (x + 2 ^ k - 1)).
  rewrite (to_size_t_id (x + 2 ^ k - 1)) by (unfold is_size_t; lia).
  apply RoundDown_pow2; [exact Hk | unfold is_size_t; lia].
Qed.

Lemma RoundUp_16 size :
  0 <= size <= 2048 -> RoundUp size 16 = 16 * ((size + 15) / 16).
Proof using size_bits_ge.
  intros H. pose proof size_max_ge as Hm.
  change 16 with (2 ^ 4). rewrite RoundUp_pow2; [|lia..].
  f_equal. f_equal. lia.
Qed.

(** The quotient that names the quantum bracket of a small size. *)
Lemma quantum_index size :
  1 <= size <= 512 ->
  to_size_t (RoundUp size 16 / 16 - 1) = (size + 15) / 16 - 1
  /\ 0 <= (size + 15) / 16 - 1 < kNumOfQuantumSizeBrackets.
Proof using size_bits_ge.
  intros H. pose proof size_max_ge as Hm.
  rewrite RoundUp_16 by lia.
  rewrite (Z.mul_comm 16), Z.div_mul by lia.
  assert (1 <= (size + 15) / 16 <= 32) by div_lia.
  unfold kNumOfQuantumSizeBrackets. split; [|lia].
  apply to_size_t_id. unfold is_size_t. lia.
Qed.

Lemma RoundToBracketSize_small size :
  0 <= size <= 512 -> RoundToBracketSize size = Ok (16 * ((size + 15) / 16)).
Proof using size_bits_ge.
  intros H. unfold RoundToBracketSize.
  rewrite (DCHECK_pass (size <=? kLargeSizeThreshold))
    by (apply Z.leb_le; unfold kLargeSizeThreshold; lia).
  rewrite RoundUp_16 by lia. branches. reflexivity.
Qed.

Lemma SizeToIndex_small size :
  1 <= size <= 512 -> SizeToIndex size = Ok ((size + 15) / 16 - 1).
Proof using size_bits_ge.
  intros H. unfold SizeToIndex.
  rewrite (DCHECK_pass (size <=? kLargeSizeThreshold))
    by (apply Z.leb_le; unfold kLargeSizeThreshold; lia).
  destruct (quantum_index size H) as [-> _]. branches. reflexivity.
Qed.

Lemma SizeToIndexAndBracketSize_small size :
  1 <= size <= 512 ->
  SizeToIndexAndBracketSize size
  = Ok ((size + 15) / 16 - 1, 16 * ((size + 15) / 16)).
Proof using size_bits_ge.
  intros H. unfold SizeToIndexAndBracketSize.
  rewrite (DCHECK_pass (size <=? kLargeSizeThreshold))
    by (apply Z.leb_le; unfold kLargeSizeThreshold; lia).
  destruct (quantum_index size H) as [-> Hidx].
  rewrite RoundUp_16 by lia. branches.
  rewrite DCHECK_EQ_call_pass; [reflexivity|].
  rewrite IndexToBracketSize_quantum by exact Hidx. f_equal. lia.
Qed.

(** C3.  For 1 <= size <= 512 [RoundToBracketSize] returns size rounded up
    to the next multiple of 16, for 512 < size <= 1024 it returns 1024 and
    for 1024 < size <= 2048 it returns 2048; the result is an entry of the
    bracket table (one of the 32 quantum brackets in the first case). *)
Theorem RoundToBracketSize_bracket_geometry size :
  1 <= size <= 2048 ->
  exists r idx,
    RoundToBracketSize size = Ok r
    /\ (size <= 512 ->
        r mod 16 = 0 /\ size <= r < size + 16
        /\ idx < kNumOfQuantumSizeBrackets /\ r = 16 * (idx + 1))
    /\ (512 < size <= 1024 -> r = 1024)
    /\ (1024 < size -> r = 2048)
    /\ 0 <= idx < kNumOfSizeBrackets
    /\ at_index bracketSizes idx = Ok r.
Proof using size_bits_ge.
  intros H.
  destruct (Z_le_gt_dec size 512) as [Hs|Hs];
    [|destruct (Z_le_gt_dec size 1024) as [Hm|Hm]].
  - exists (16 * ((size + 15) / 16)), ((size + 15) / 16 - 1).
    destruct (quantum_index size ltac:(lia)) as [_ Hidx].
    rewrite RoundToBracketSize_small by lia.
    split; [reflexivity|]. split.
    + intros _. pose proof (round_up_bounds size 16 ltac:(lia)) as [Hmod Hb].
      replace (size + 16 - 1) with (size + 15) in * by lia.
      repeat split; lia.
    + split; [lia|]. split; [lia|].
      unfold kNumOfSizeBrackets, kNumOfQuantumSizeBrackets in *.
      split; [lia|].
      rewrite at_index_quantum by exact Hidx. f_equal. lia.
  - exists 1024, (kNumOfSizeBrackets - 2).
    rewrite RoundToBracketSize_1KB by lia.
    unfold kNumOfSizeBrackets. repeat split; try lia; try reflexivity.
  - exists 2048, (kNumOfSizeBrackets - 1).
    rewrite RoundToBracketSize_2KB by lia.
    unfold kNumOfSizeBrackets. repeat split; try lia; try reflexivity.
Qed.

(** C7.  A 24-byte request classifies into bracket index 1 with a 32-byte
    slot: [SizeToIndexAndBracketSize(24, &bs)] returns 1 and stores 32. *)
Theorem SizeToIndexAndBracketSize_24 :
  SizeToIndexAndBracketSize 24 = Ok (1, 32).
Proof using size_bits_ge. rewrite SizeToIndexAndBracketSize_small by lia. reflexivity. Qed.

(** C8.  For 1 <= size <= 2048 the fused classifier returns the index of
    [SizeToIndex] and stores the bracket size of [RoundToBracketSize]. *)
Theorem SizeToIndexAndBracketSize_agrees size :
  1 <= size <= 2048 ->
  exists idx bracket_size,
    SizeToIndexAndBracketSize size = Ok (idx, bracket_size)
    /\ SizeToIndex size = Ok idx
    /\ RoundToBracketSize size = Ok bracket_size.
Proof using size_bits_ge.
  intros H.
  destruct (Z_le_gt_dec size 512) as [Hs|Hs];
    [|destruct (Z_le_gt_dec size 1024) as [Hm|Hm]].
  - rewrite SizeToIndexAndBracketSize_small, SizeToIndex_small,
      RoundToBracketSize_small by lia.
    eauto.
  - rewrite SizeToIndexAndBracketSize_1KB, SizeToIndex_1KB,
      RoundToBracketSize_1KB by lia.
    eauto.
  - rewrite SizeToIndexAndBracketSize_2KB, SizeToIndex_2KB,
      RoundToBracketSize_2KB by lia.
    eauto.
Qed.

(** C10.  For 1 <= size <= 2048 [SizeToIndex] returns an index below
    [kNumOfSizeBrackets]; at size 0 the unsigned [RoundUp(0, 16) / 16 - 1]
    wraps to the largest [size_t], which is no bracket index.  So among the
    sizes up to the threshold the index is in range exactly when
    size >= 1. *)
Theorem SizeToIndex_in_range_iff size :
  0 <= size <= 2048 ->
  exists idx,
    SizeToIndex size = Ok idx
    /\ (0 <= idx < kNumOfSizeBrackets <-> 1 <= size)
    /\ (size = 0 -> idx = 2 ^ size_bits - 1).
Proof using size_bits_ge.
  intros H. pose proof size_max_ge as Hmax.
  destruct (Z.eq_dec size 0) as [->|Hz].
  - exists (2 ^ size_bits - 1). split.
    + unfold SizeToIndex.
      rewrite (DCHECK_pass (0 <=? kLargeSizeThreshold)) by reflexivity.
      rewrite RoundUp_16 by lia.
      change (to_size_t (16 * ((0 + 15) / 16) / 16 - 1)) with (to_size_t (- 1)).
      rewrite to_size_t_minus_1. reflexivity.
    + unfold kNumOfSizeBrackets. split; lia.
  - unfold kNumOfSizeBrackets.
    destruct (Z_le_gt_dec size 512) as [Hs|Hs];
      [|destruct (Z_le_gt_dec size 1024) as [Hm|Hm]].
    + exists ((size + 15) / 16 - 1).
      rewrite SizeToIndex_small by lia.
      destruct (quantum_index size ltac:(lia)) as [_ Hidx].
      unfold kNumOfQuantumSizeBrackets in Hidx.
      split; [reflexivity|]. split; [|lia]. split; lia.
    + exists 32. rewrite SizeToIndex_1KB by lia.
      split; [reflexivity|]. split; [|lia]. split; lia.
    + exists 33. rewrite SizeToIndex_2KB by lia.
      split; [reflexivity|]. split; [|lia]. split; lia.
Qed.

(** *** More on the size classifier *)

Ltac comparisons :=
  unfold KB, kLargeSizeThreshold, kNumOfSizeBrackets in *;
  repeat match goal with
    | |- context [?a <=? ?b] => destruct (Z.leb_spec a b); try lia
    | |- context [?a <? ?b] => destruct (Z.ltb_spec a b); try lia
    | |- context [?a =? ?b] => destruct (Z.eqb_spec a b); try lia
    end;
  simpl.

Lemma elem_of_bracketSizes s :
  s ∈ bracketSizes <-> (16 <= s <= 512 /\ s mod 16 = 0) \/ s = 1024 \/ s = 2048.
Proof using Type.
  clear size_bits_ge.
  unfold bracketSizes. rewrite elem_of_app, list_elem_of_fmap.
  change (Z.to_nat kNumOfQuantumSizeBrackets) with 32%nat.
  split.
  - intros [(i & -> & Hi) | H].
    + apply elem_of_seq in Hi. left. split; [lia|].
      rewrite Z.mul_comm. apply Z.mod_mul. lia.
    + right. unfold KB in H.
      apply elem_of_cons in H as [->|H]; [left; reflexivity|].
      apply elem_of_cons in H as [->|H]; [right; reflexivity|].
      apply elem_of_nil in H. contradiction.
  - intros [[Hr Hm] | [-> | ->]].
    + left. exists (Z.to_nat (s / 16 - 1)). split.
      * rewrite Z2Nat.id by div_lia. div_lia.
      * apply elem_of_seq. div_lia.
    + right. unfold KB. apply elem_of_cons. left. reflexivity.
    + right. unfold KB. apply elem_of_cons. right. apply elem_of_cons. left. reflexivity.
Qed.

Lemma at_index_elem_of (v : list Z) i x : at_index v i = Ok x -> x ∈ v.
Proof using Type.
  unfold at_index. destruct (_ && _); [|discriminate].
  destruct (v !! Z.to_nat i) eqn:E; [|discriminate].
  intros [= <-]. eapply list_elem_of_lookup_2, E.
Qed.

Lemma DCHECK_EQ_call_debug_inv x c :
  kIsDebugBuild = true -> DCHECK_EQ_call x c = Ok tt -> c = Ok x.
Proof using Type.
  intros Hdbg. unfold DCHECK_EQ_call. rewrite Hdbg.
  destruct c as [y|e]; simpl; [|discriminate].
  unfold CHECK. destruct (Z.eqb_spec x y); [congruence | discriminate].
Qed.

Lemma BracketSizeToIndex_quantum s :
  16 <= s <= 512 -> s mod 16 = 0 -> BracketSizeToIndex s = Ok (s / 16 - 1).
Proof using size_bits_ge.
  intros Hr Hm. pose proof size_max_ge as Hmax.
  assert (Hidx : 0 <= s / 16 - 1 < kNumOfQuantumSizeBrackets)
    by (unfold kNumOfQuantumSizeBrackets; div_lia).
  unfold BracketSizeToIndex.
  rewrite (to_size_t_id (s / 16 - 1)) by (unfold is_size_t; div_lia).
  rewrite Hm. comparisons.
  rewrite !DCHECK_pass by reflexivity. simpl.
  rewrite (DCHECK_EQ_call_pass s)
    by (rewrite at_index_quantum by exact Hidx; f_equal; div_lia).
  reflexivity.
Qed.

Lemma BracketSizeToIndex_1KB : BracketSizeToIndex 1024 = Ok (kNumOfSizeBrackets - 2).
Proof using Type. unfold BracketSizeToIndex, DCHECK, DCHECK_EQ_call. destruct kIsDebugBuild; reflexivity. Qed.

Lemma BracketSizeToIndex_2KB : BracketSizeToIndex 2048 = Ok (kNumOfSizeBrackets - 1).
Proof using Type. unfold BracketSizeToIndex, DCHECK, DCHECK_EQ_call. destruct kIsDebugBuild; reflexivity. Qed.

Lemma RoundToBracketSize_value size :
  0 <= size <= 2048 ->
  RoundToBracketSize size
  = Ok (if size <=? 512 then 16 * ((size + 15) / 16)
        else if size <=? 1024 then 1024 else 2048).
Proof using size_bits_ge.
  intros H. comparisons.
  - apply RoundToBracketSize_small. lia.
  - apply RoundToBracketSize_1KB. lia.
  - apply RoundToBracketSize_2KB. lia.
Qed.

Lemma SizeToIndex_value size :
  1 <= size <= 2048 ->
  SizeToIndex size
  = Ok (if size <=? 512 then (size + 15) / 16 - 1
        else if size <=? 1024 then 32 else 33).
Proof using size_bits_ge.
  intros H. comparisons.
  - apply SizeToIndex_small. lia.
  - apply SizeToIndex_1KB. lia.
  - apply SizeToIndex_2KB. lia.
Qed.

(** X7.  Index to size and back: every bracket index below
    [kNumOfSizeBrackets] has a bracket size, and [BracketSizeToIndex] maps
    that size to the index it came from. *)
Theorem BracketSizeToIndex_IndexToBracketSize idx :
  0 <= idx < kNumOfSizeBrackets ->
  exists size,
    IndexToBracketSize idx = Ok size
    /\ BracketSizeToIndex size = Ok idx.
Proof using size_bits_ge.
  intros H. unfold kNumOfSizeBrackets in H.
  destruct (Z_lt_le_dec idx 32) as [Hq|Hq].
  - exists (16 * (idx + 1)). split.
    + apply IndexToBracketSize_quantum. unfold kNumOfQuantumSizeBrackets. lia.
    + rewrite BracketSizeToIndex_quantum.
      * f_equal. div_lia.
      * lia.
      * rewrite Z.mul_comm. apply Z.mod_mul. lia.
  - destruct (Z.eq_dec idx 32) as [->|Hne].
    + exists 1024. split; [apply IndexToBracketSize_1KB | apply BracketSizeToIndex_1KB].
    + replace idx with 33 by lia.
      exists 2048. split; [apply IndexToBracketSize_2KB | apply BracketSizeToIndex_2KB].
Qed.

(** X8.  In a debug build [BracketSizeToIndex] returns exactly for the
    entries of [bracketSizes], and the index it returns is the place of the
    size in the table.  Its first DCHECK alone lets every multiple of 16
    below 1024 through; the last one stops 528, 544, ... *)
Theorem BracketSizeToIndex_debug_domain size :
  kIsDebugBuild = true ->
  ((exists idx, BracketSizeToIndex size = Ok idx) <-> size ∈ bracketSizes)
  /\ (forall idx, BracketSizeToIndex size = Ok idx ->
                  0 <= idx < kNumOfSizeBrackets
                  /\ IndexToBracketSize idx = Ok size).
Proof using size_bits_ge.
  intros Hdbg.
  assert (Hinv : forall idx, BracketSizeToIndex size = Ok idx ->
                             at_index bracketSizes idx = Ok size).
  { intros idx H. unfold BracketSizeToIndex in H.
    apply bind_Ok_inv in H as ([] & _ & H).
    apply bind_Ok_inv in H as (i & _ & H).
    apply bind_Ok_inv in H as ([] & Heq & H).
    injection H as <-.
    apply (DCHECK_EQ_call_debug_inv _ _ Hdbg Heq). }
  split; [split|].
  - intros [idx H]. eapply at_index_elem_of, Hinv, H.
  - intros Hin. apply elem_of_bracketSizes in Hin as [[Hr Hm] | [-> | ->]].
    + eexists. apply BracketSizeToIndex_quantum; assumption.
    + eexists. apply BracketSizeToIndex_1KB.
    + eexists. apply BracketSizeToIndex_2KB.
  - intros idx H. apply Hinv in H.
    assert (Hrange : 0 <= idx < kNumOfSizeBrackets).
    { unfold at_index in H.
      destruct (Z.leb_spec 0 idx); [|discriminate].
      destruct (Z.ltb_spec idx (Z.of_nat (length bracketSizes))); [|discriminate].
      change (Z.of_nat (length bracketSizes)) with 34 in *.
      unfold kNumOfSizeBrackets. lia. }
    split; [exact Hrange|].
    unfold IndexToBracketSize.
    rewrite DCHECK_pass by (apply Z.ltb_lt; lia). exact H.
Qed.

(** X9.  Rounding a request to its bracket size and looking the size up
    gives the bracket that [SizeToIndex] computes from the request. *)
Theorem BracketSizeToIndex_RoundToBracketSize size :
  1 <= size <= 2048 ->
  exists bracket_size idx,
    RoundToBracketSize size = Ok bracket_size
    /\ BracketSizeToIndex bracket_size = Ok idx
    /\ SizeToIndex size = Ok idx.
Proof using size_bits_ge.
  intros H.
  rewrite RoundToBracketSize_value, SizeToIndex_value by lia.
  comparisons.
  - eexists _, _. split; [reflexivity|].
    rewrite BracketSizeToIndex_quantum.
    + split; [reflexivity|]. f_equal. div_lia.
    + div_lia.
    + rewrite Z.mul_comm. apply Z.mod_mul. lia.
  - eexists _, _. split; [reflexivity|].
    split; [apply BracketSizeToIndex_1KB | reflexivity].
  - eexists _, _. split; [reflexivity|].
    split; [apply BracketSizeToIndex_2KB | reflexivity].
Qed.

(** X10.  [RoundToBracketSize] is a best fit: its result is the smallest
    entry of [bracketSizes] that holds the request. *)
Theorem RoundToBracketSize_least_bracket size :
  1 <= size <= 2048 ->
  exists r,
    RoundToBracketSize size = Ok r
    /\ r ∈ bracketSizes
    /\ size <= r
    /\ (forall s, s ∈ bracketSizes -> size <= s -> r <= s).
Proof using size_bits_ge.
  intros H. rewrite RoundToBracketSize_value by lia.
  assert (Hm : (16 * ((size + 15) / 16)) mod 16 = 0)
    by (rewrite Z.mul_comm; apply Z.mod_mul; lia).
  comparisons; eexists; (split; [reflexivity|]); rewrite elem_of_bracketSizes.
  - split; [left; split; [div_lia | exact Hm]|]. split; [div_lia|].
    intros s Hs Hle. apply elem_of_bracketSizes in Hs. div_lia.
  - split; [auto|]. split; [lia|].
    intros s Hs Hle. apply elem_of_bracketSizes in Hs. lia.
  - split; [auto|]. split; [lia|].
    intros s Hs Hle. apply elem_of_bracketSizes in Hs. lia.
Qed.

(** X11.  Larger requests never land in a smaller bracket: [SizeToIndex]
    is monotone on 1..2048. *)
Theorem SizeToIndex_monotone a b :
  1 <= a -> a <= b -> b <= 2048 ->
  exists ia ib,
    SizeToIndex a = Ok ia /\ SizeToIndex b = Ok ib /\ ia <= ib.
Proof using size_bits_ge.
  intros Ha Hab Hb. rewrite !SizeToIndex_value by lia.
  comparisons; eexists _, _; (split; [reflexivity|]); (split; [reflexivity|]); div_lia.
Qed.

(** X12.  The brackets served from thread-local runs, those with an index
    up to [kMaxThreadLocalSizeBracketIdx], are the requests of at most 176
    bytes. *)
Theorem SizeToIndex_thread_local size :
  1 <= size <= 2048 ->
  exists idx,
    SizeToIndex size = Ok idx
    /\ (idx <= kMaxThreadLocalSizeBracketIdx <-> size <= 176).
Proof using size_bits_ge.
  intros H. rewrite SizeToIndex_value by lia.
  unfold kMaxThreadLocalSizeBracketIdx.
  comparisons; eexists; (split; [reflexivity|]); div_lia.
Qed.

(** *** With a page size that is a positive [int] *)
Hypothesis kPageSize_int : 0 < kPageSize < 2 ^ 31.

Lemma ToPageMapIndex_nonneg r addr pm_idx :
  ToPageMapIndex r addr = Ok pm_idx -> 0 <= pm_idx.
Proof using size_bits_ge kPageSize_int.
  unfold ToPageMapIndex. intros H.
  apply bind_Ok_inv in H as (_ & _ & H).
  apply bind_Ok_inv in H as (_ & _ & H).
  injection H as <-.
  apply Z.div_pos; [|lia]. apply to_size_t_range.
Qed.

(** C6.  The byte size of a free page run lives in
    [free_page_run_size_map_] only.  For a run whose page-map index lies
    inside the table and a page-aligned size, [SetByteSize] writes the
    entry at that index and nothing else (not the memory of the run),
    and [ByteSize] then returns the size, whatever the memory holds. *)
Theorem SetByteSize_then_ByteSize st this byte_size pm_idx :
  is_size_t byte_size ->
  byte_size mod kPageSize = 0 ->
  ToPageMapIndex (rosalloc st) this = Ok pm_idx ->
  pm_idx < Z.of_nat (length (free_page_run_size_map_ (rosalloc st))) ->
  exists st',
    SetByteSize st this byte_size = Ok st'
    /\ ByteSize st' this = Ok byte_size
    /\ rosalloc st'
       = with_size_map (rosalloc st)
           (<[Z.to_nat pm_idx := byte_size]> (free_page_run_size_map_ (rosalloc st)))
    /\ (forall j : nat,
          j <> Z.to_nat pm_idx ->
          free_page_run_size_map_ (rosalloc st') !! j
          = free_page_run_size_map_ (rosalloc st) !! j)
    /\ memory st' = memory st
    /\ madvise_calls st' = madvise_calls st
    /\ (forall m, SetByteSize (with_memory st m) this byte_size
                  = Ok (with_memory st' m))
    /\ (forall m, ByteSize (with_memory st' m) this = Ok byte_size).
Proof using size_bits_ge kPageSize_int.
  intros [Hlo Hhi] Hal Hidx Hlen.
  pose proof (ToPageMapIndex_nonneg _ _ _ Hidx) as Hnn.
  set (v := free_page_run_size_map_ (rosalloc st)) in *.
  assert (Hset : set_index v pm_idx byte_size = Ok (<[Z.to_nat pm_idx := byte_size]> v)).
  { unfold set_index.
    replace ((0 <=? pm_idx) && (pm_idx <? Z.of_nat (length v))) with true; [reflexivity|].
    symmetry; apply andb_true_iff; split; [apply Z.leb_le | apply Z.ltb_lt]; lia. }
  assert (Hpass : DCHECK (byte_size mod kPageSize =? 0) = Ok tt)
    by (apply DCHECK_pass, Z.eqb_eq, Hal).
  assert (Hread : forall st2,
             rosalloc st2 = with_size_map (rosalloc st) (<[Z.to_nat pm_idx := byte_size]> v) ->
             ByteSize st2 this = Ok byte_size).
  { intros st2 E. unfold ByteSize. rewrite E.
    change (ToPageMapIndex (with_size_map (rosalloc st) _) this)
      with (ToPageMapIndex (rosalloc st) this).
    rewrite Hidx. simpl. rewrite at_index_insert by (fold v; lia). simpl.
    rewrite (DCHECK_pass (byte_size >=? 0)) by (rewrite Z.geb_leb; apply Z.leb_le; lia).
    simpl. rewrite Hpass. reflexivity. }
  eexists. split.
  { unfold SetByteSize. rewrite Hpass. simpl. rewrite Hidx. simpl.
    fold v. rewrite Hset. simpl. reflexivity. }
  split; [apply Hread; reflexivity|].
  split; [reflexivity|].
  split.
  { intros j Hj. simpl. apply list_lookup_insert_ne. congruence. }
  split; [reflexivity|]. split; [reflexivity|].
  split.
  - intros m. unfold SetByteSize. rewrite Hpass. simpl. rewrite Hidx. simpl.
    fold v. rewrite Hset. reflexivity.
  - intros m. apply Hread. reflexivity.
Qed.

(** C5.  In a debug build [ReleasePages] keeps the first page of the run
    out of the advised range: when it releases, the one [madvise] call
    starts one page after the start of the run and covers the byte size
    of the run minus one page, so the bytes of the first page, the magic
    number among them, are as before. *)
Theorem ReleasePages_debug_excludes_first_page st this byte_size :
  kIsDebugBuild = true ->
  ByteSize st this = Ok byte_size ->
  kPageSize <= byte_size < 2 ^ size_bits ->
  exists st' release_pages,
    ReleasePages st this = Ok st'
    /\ ShouldReleasePages st this = Ok release_pages
    /\ st' = (if release_pages && (byte_size - kPageSize >? 0)
              then madvise st (ptr_add this kPageSize) (byte_size - kPageSize)
              else st)
    /\ (madvise_calls st' = madvise_calls st
        \/ madvise_calls st'
           = madvise_calls st ++ [(ptr_add this kPageSize, byte_size - kPageSize)])
    /\ (forall a, this <= a < this + kPageSize -> memory st' a = memory st a)
    /\ magic_num_ st' this = magic_num_ st this
    /\ IsFree st' this = IsFree st this.
Proof using size_bits_ge kPageSize_int.
  intros Hdbg H Hsz.
  destruct (ByteSize_debug_inv _ _ _ Hdbg H) as [Hnn Hal].
  destruct (ShouldReleasePages_total _ _ _ H) as [b Hb].
  assert (Hsub : to_size_t (byte_size - kPageSize) = byte_size - kPageSize)
    by (apply to_size_t_id; unfold is_size_t; lia).
  set (st' := if b && (byte_size - kPageSize >? 0)
              then madvise st (ptr_add this kPageSize) (byte_size - kPageSize)
              else st).
  assert (Hmem : forall a, this <= a < this + kPageSize -> memory st' a = memory st a).
  { intros a Ha. subst st'.
    destruct (b && (byte_size - kPageSize >? 0)); [|reflexivity].
    apply madvise_memory_outside.
    unfold ptr_add, to_size_t.
    pose proof size_max_ge as Hmax.
    pose proof (Z.div_mod (this + kPageSize) (2 ^ size_bits) ltac:(lia)) as E.
    pose proof (Z.mod_pos_bound (this + kPageSize) (2 ^ size_bits) ltac:(lia)) as B.
    set (q := (this + kPageSize) / 2 ^ size_bits) in *.
    set (m := (this + kPageSize) mod 2 ^ size_bits) in *.
    destruct (Z_lt_le_dec q 0); [|destruct (Z.eq_dec q 0)]; nia. }
  exists st', b.
  split.
  { unfold ReleasePages. rewrite H. simpl.
    rewrite (DCHECK_pass (byte_size mod kPageSize =? 0)) by (apply Z.eqb_eq, Hal).
    simpl. rewrite Hb. simpl. rewrite Hdbg.
    rewrite DCHECK_pass by (rewrite Z.geb_leb; apply Z.leb_le; lia).
    simpl. rewrite Hsub. subst st'.
    destruct (byte_size - kPageSize >? 0); destruct b; reflexivity. }
  split; [exact Hb|]. split; [reflexivity|]. split.
  { subst st'. destruct (b && (byte_size - kPageSize >? 0)); [right | left]; reflexivity. }
  split; [exact Hmem|].
  assert (Hmagic : magic_num_ st' this = magic_num_ st this)
    by (apply Hmem; lia).
  split; [exact Hmagic|].
  unfold IsFree. rewrite Hmagic. reflexivity.
Qed.

(** C9.  In a debug build a free page run of exactly one page is never
    released, whatever the page release mode: once the first page is set
    aside no byte is left, and [ReleasePages] returns without a [madvise]
    call. *)
Theorem ReleasePages_debug_single_page st this :
  kIsDebugBuild = true ->
  ByteSize st this = Ok kPageSize ->
  ReleasePages st this = Ok st.
Proof using size_bits_ge kPageSize_int.
  intros Hdbg H.
  destruct (ShouldReleasePages_total _ _ _ H) as [b Hb].
  unfold ReleasePages. rewrite H. simpl.
  rewrite (DCHECK_pass (kPageSize mod kPageSize =? 0))
    by (apply Z.eqb_eq, Z.mod_same; lia).
  simpl. rewrite Hb. simpl. rewrite Hdbg.
  rewrite DCHECK_pass by (rewrite Z.geb_leb; apply Z.leb_le; lia).
  simpl. rewrite Z.sub_diag. unfold to_size_t.
  rewrite Z.mod_0_l by (pose proof size_max_ge; lia).
  reflexivity.
Qed.

(** X20.  The index of a request names its bracket: the table entry at
    [SizeToIndex(size)] is the size [RoundToBracketSize(size)] rounds to, as
    the DCHECKs of [SizeToIndexAndBracketSize] expect. *)
Theorem IndexToBracketSize_SizeToIndex size :
  1 <= size <= 2048 ->
  exists idx bracket_size,
    SizeToIndex size = Ok idx
    /\ IndexToBracketSize idx = Ok bracket_size
    /\ RoundToBracketSize size = Ok bracket_size.
Proof using size_bits_ge.
  intros H.
  rewrite RoundToBracketSize_value, SizeToIndex_value by lia.
  comparisons; eexists _, _; (split; [reflexivity|]).
  - rewrite IndexToBracketSize_quantum
      by (unfold kNumOfQuantumSizeBrackets; div_lia).
    split; [reflexivity|]. f_equal. lia.
  - split; [apply IndexToBracketSize_1KB | reflexivity].
  - split; [apply IndexToBracketSize_2KB | reflexivity].
Qed.

(** *** More on page-map indices and free page runs *)

Lemma DCHECK_debug_inv b :
  kIsDebugBuild = true -> DCHECK b = Ok tt -> b = true.
Proof using Type.
  intros Hdbg. unfold DCHECK, CHECK. rewrite Hdbg.
  destruct b; [reflexivity | discriminate].
Qed.

Lemma in_region_check r addr :
  0 <= base_ r -> base_ r + capacity_ r < 2 ^ size_bits ->
  base_ r <= addr < base_ r + capacity_ r ->
  (base_ r <=? addr) && (addr <? ptr_add (base_ r) (capacity_ r)) = true.
Proof using Type.
  clear size_bits_ge kPageSize_int.
  intros Hb Hc Ha. unfold ptr_add.
  rewrite to_size_t_id by (unfold is_size_t; lia).
  apply andb_true_iff. split; [apply Z.leb_le | apply Z.ltb_lt]; lia.
Qed.

(** X13.  Page number to address and back: inside a region that does not
    wrap around the address space, the address of page [i] has page-map
    index [i], with [ToPageMapIndex] and with [RoundDownToPageMapIndex]. *)
Theorem ToPageMapIndex_of_page r i :
  0 <= base_ r -> base_ r + capacity_ r < 2 ^ size_bits ->
  0 <= i -> i * kPageSize < capacity_ r ->
  ToPageMapIndex r (base_ r + i * kPageSize) = Ok i
  /\ RoundDownToPageMapIndex r (base_ r + i * kPageSize) = Ok i.
Proof using size_bits_ge kPageSize_int.
  intros Hb Hc Hi Hlt.
  assert (Hm : 0 <= i * kPageSize) by (apply Z.mul_nonneg_nonneg; lia).
  assert (Hoff : to_size_t (i * kPageSize) = i * kPageSize)
    by (apply to_size_t_id; unfold is_size_t; lia).
  assert (Hin := in_region_check r (base_ r + i * kPageSize) Hb Hc ltac:(lia)).
  split.
  - unfold ToPageMapIndex. rewrite (DCHECK_pass _ Hin). simpl.
    replace (base_ r + i * kPageSize - base_ r) with (i * kPageSize) by lia.
    rewrite Hoff.
    rewrite DCHECK_pass by (apply Z.eqb_eq, Z.mod_mul; lia). simpl.
    rewrite Z.div_mul by lia. reflexivity.
  - unfold RoundDownToPageMapIndex. rewrite DCHECK_pass by exact Hin. simpl.
    rewrite (to_size_t_id (base_ r + i * kPageSize)) by (unfold is_size_t; lia).
    rewrite (to_size_t_id (base_ r)) by (unfold is_size_t; lia).
    replace (base_ r + i * kPageSize - base_ r) with (i * kPageSize) by lia.
    rewrite Hoff, Z.div_mul by lia. reflexivity.
Qed.

(** X14.  [RoundDownToPageMapIndex] maps every address of a page, not only
    the first, to the index of that page. *)
Theorem RoundDownToPageMapIndex_within_page r addr i :
  0 <= base_ r -> base_ r + capacity_ r < 2 ^ size_bits ->
  0 <= i ->
  base_ r + i * kPageSize <= addr < base_ r + (i + 1) * kPageSize ->
  addr < base_ r + capacity_ r ->
  RoundDownToPageMapIndex r addr = Ok i.
Proof using size_bits_ge kPageSize_int.
  intros Hb Hc Hi Hpage Hin.
  assert (Hm : 0 <= i * kPageSize) by (apply Z.mul_nonneg_nonneg; lia).
  unfold RoundDownToPageMapIndex.
  rewrite DCHECK_pass by (apply in_region_check; lia). simpl.
  rewrite (to_size_t_id addr) by (unfold is_size_t; lia).
  rewrite (to_size_t_id (base_ r)) by (unfold is_size_t; lia).
  rewrite (to_size_t_id (addr - base_ r)) by (unfold is_size_t; lia).
  f_equal. symmetry.
  apply (Z.div_unique_pos _ _ _ (addr - base_ r - i * kPageSize)); lia.
Qed.

(** X15.  In a debug build [ToPageMapIndex] accepts the page-aligned
    addresses of the region and nothing else: it returns [i] exactly for
    the address of page [i], and that page starts below the capacity. *)
Theorem ToPageMapIndex_debug_domain r addr i :
  kIsDebugBuild = true ->
  0 <= base_ r -> 0 <= capacity_ r -> base_ r + capacity_ r < 2 ^ size_bits ->
  ToPageMapIndex r addr = Ok i
  <-> 0 <= i /\ i * kPageSize < capacity_ r /\ addr = base_ r + i * kPageSize.
Proof using size_bits_ge kPageSize_int.
  intros Hdbg Hb Hcap Hc. split.
  - intros H. pose proof (ToPageMapIndex_nonneg _ _ _ H) as Hi.
    unfold ToPageMapIndex in H.
    apply bind_Ok_inv in H as ([] & Hin & H).
    apply bind_Ok_inv in H as ([] & Hal & H).
    injection H as H.
    apply (DCHECK_debug_inv _ Hdbg) in Hin, Hal.
    apply andb_true_iff in Hin as [Hlo Hhi].
    apply Z.leb_le in Hlo. apply Z.ltb_lt in Hhi. apply Z.eqb_eq in Hal.
    unfold ptr_add in Hhi.
    rewrite to_size_t_id in Hhi by (unfold is_size_t; lia).
    rewrite to_size_t_id in H, Hal by (unfold is_size_t; lia).
    pose proof (Z.div_mod (addr - base_ r) kPageSize ltac:(lia)) as E.
    rewrite Hal, H in E. split; [exact Hi|]. split; lia.
  - intros (Hi & Hlt & ->). apply ToPageMapIndex_of_page; assumption.
Qed.

(** X16.  Sizes of distinct runs do not interfere: [SetByteSize] on one
    run leaves what [ByteSize] returns for a run with another page-map
    index unchanged. *)
Theorem SetByteSize_other_run st this other i j byte_size st' :
  ToPageMapIndex (rosalloc st) this = Ok i ->
  ToPageMapIndex (rosalloc st) other = Ok j ->
  i <> j ->
  SetByteSize st this byte_size = Ok st' ->
  ByteSize st' other = ByteSize st other.
Proof using size_bits_ge kPageSize_int.
  intros Hi Hj Hne H.
  pose proof (ToPageMapIndex_nonneg _ _ _ Hi) as Hi0.
  pose proof (ToPageMapIndex_nonneg _ _ _ Hj) as Hj0.
  unfold SetByteSize in H.
  apply bind_Ok_inv in H as ([] & _ & H).
  rewrite Hi in H. simpl in H.
  apply bind_Ok_inv in H as (v & Hv & H).
  injection H as <-.
  unfold set_index in Hv. destruct (_ && _); [|discriminate].
  injection Hv as <-.
  unfold ByteSize. simpl.
  change (ToPageMapIndex (with_size_map (rosalloc st) _) other)
    with (ToPageMapIndex (rosalloc st) other).
  rewrite Hj. simpl. unfold at_index.
  rewrite length_insert, list_lookup_insert_ne by lia.
  reflexivity.
Qed.


(** *** With a page size that is a power of two *)
Hypothesis kPageSize_pow2 : kPageSize = 2 ^ Z.log2 kPageSize.

Lemma kPageSize_shift : 0 <= Z.log2 kPageSize < 31.
Proof using kPageSize_pow2 kPageSize_int.
  split; [apply Z.log2_nonneg|].
  apply Z.log2_lt_pow2; lia.
Qed.

Lemma RoundUp_kPageSize x :
  0 <= x -> x + kPageSize - 1 < 2 ^ size_bits ->
  RoundUp x kPageSize = kPageSize * ((x + kPageSize - 1) / kPageSize).
Proof using size_bits_ge kPageSize_pow2 kPageSize_int.
  intros Hx Hno. pose proof kPageSize_shift as Hk.
  rewrite kPageSize_pow2 in Hno |- * at 1.
  rewrite RoundUp_pow2 by lia.
  rewrite <- kPageSize_pow2. reflexivity.
Qed.

(** C2.  [UsableSize(size)] is [RoundUp(size, kPageSize)] above
    [kLargeSizeThreshold] and [RoundToBracketSize(size)] otherwise; in
    particular [UsableSize(10000)] is [ceil(10000 / kPageSize) * kPageSize],
    the least multiple of the page size that is at least 10000. *)
Theorem UsableSize_by_threshold bytes :
  (kLargeSizeThreshold < bytes -> UsableSize bytes = Ok (RoundUp bytes kPageSize))
  /\ (bytes <= kLargeSizeThreshold -> UsableSize bytes = RoundToBracketSize bytes)
  /\ exists u,
       UsableSize 10000 = Ok u
       /\ u = kPageSize * ((10000 + kPageSize - 1) / kPageSize)
       /\ u mod kPageSize = 0
       /\ 10000 <= u < 10000 + kPageSize.
Proof using size_bits_ge kPageSize_pow2 kPageSize_int.
  split; [|split].
  - intros H. unfold UsableSize. rewrite Z.gtb_ltb.
    destruct (Z.ltb_spec kLargeSizeThreshold bytes); [reflexivity | lia].
  - intros H. unfold UsableSize. rewrite Z.gtb_ltb.
    destruct (Z.ltb_spec kLargeSizeThreshold bytes); [lia | reflexivity].
  - exists (kPageSize * ((10000 + kPageSize - 1) / kPageSize)).
    pose proof size_max_ge as Hmax.
    split.
    + unfold UsableSize. simpl. rewrite RoundUp_kPageSize; [reflexivity | lia | lia].
    + split; [reflexivity|]. apply round_up_bounds. lia.
Qed.

(** C4.  When the rounding does not overflow [size_t], the usable size is
    at least the requested size, on the bracket branch and on the page
    branch alike. *)
Theorem UsableSize_ge_request bytes :
  is_size_t bytes ->
  (kLargeSizeThreshold < bytes -> bytes + kPageSize - 1 < 2 ^ size_bits) ->
  exists u, UsableSize bytes = Ok u /\ bytes <= u.
Proof using size_bits_ge kPageSize_pow2 kPageSize_int.
  intros [Hlo Hhi] Hno. unfold UsableSize. rewrite Z.gtb_ltb.
  destruct (Z.ltb_spec kLargeSizeThreshold bytes) as [Hl|Hl].
  - eexists. split; [reflexivity|].
    rewrite RoundUp_kPageSize by auto.
    apply round_up_bounds. lia.
  - unfold kLargeSizeThreshold in Hl.
    destruct (Z_le_gt_dec bytes 512) as [Hs|Hs];
      [|destruct (Z_le_gt_dec bytes 1024) as [Hm|Hm]].
    + rewrite RoundToBracketSize_small by lia. eexists. split; [reflexivity|].
      pose proof (round_up_bounds bytes 16 ltac:(lia)) as [_ Hb].
      replace (bytes + 16 - 1) with (bytes + 15) in Hb by lia. lia.
    + rewrite RoundToBracketSize_1KB by lia. eexists. split; [reflexivity | lia].
    + rewrite RoundToBracketSize_2KB by lia. eexists. split; [reflexivity | lia].
Qed.

(** *** More on usable sizes *)

Lemma UsableSize_large x :
  kLargeSizeThreshold < x -> x + kPageSize - 1 < 2 ^ size_bits ->
  UsableSize x = Ok (kPageSize * ((x + kPageSize - 1) / kPageSize)).
Proof using size_bits_ge kPageSize_pow2 kPageSize_int.
  intros Hl Hno. unfold UsableSize. rewrite Z.gtb_ltb.
  destruct (Z.ltb_spec kLargeSizeThreshold x); [|lia].
  rewrite RoundUp_kPageSize by (unfold kLargeSizeThreshold in *; lia).
  reflexivity.
Qed.

Lemma UsableSize_small x :
  0 <= x <= kLargeSizeThreshold ->
  UsableSize x
  = Ok (if x <=? 512 then 16 * ((x + 15) / 16)
        else if x <=? 1024 then 1024 else 2048).
Proof using size_bits_ge.
  clear kPageSize_pow2 kPageSize_int.
  intros H. unfold UsableSize. rewrite Z.gtb_ltb.
  destruct (Z.ltb_spec kLargeSizeThreshold x); [lia|].
  apply RoundToBracketSize_value. unfold kLargeSizeThreshold in *. lia.
Qed.

(** The pages tile the address space: a page multiple below the top
    leaves room for one more page. *)
Lemma page_multiple_room q :
  kPageSize * q < 2 ^ size_bits -> kPageSize * q + kPageSize <= 2 ^ size_bits.
Proof using size_bits_ge kPageSize_pow2 kPageSize_int.
  intros H. pose proof kPageSize_shift as Hk.
  assert (E : 2 ^ size_bits = kPageSize * 2 ^ (size_bits - Z.log2 kPageSize)).
  { rewrite kPageSize_pow2 at 1. rewrite <- Z.pow_add_r by lia. f_equal. lia. }
  rewrite E in *.
  apply Z.mul_lt_mono_pos_l in H; [|lia].
  rewrite <- Z.mul_succ_r. apply Z.mul_le_mono_nonneg_l; lia.
Qed.

(** X18.  [UsableSize] is monotone: of two requests the larger one never
    gets the smaller usable size, across the bracket and the page branch. *)
Theorem UsableSize_monotone a b :
  0 <= a -> a <= b ->
  (kLargeSizeThreshold < b -> b + kPageSize - 1 < 2 ^ size_bits) ->
  exists ua ub,
    UsableSize a = Ok ua /\ UsableSize b = Ok ub /\ ua <= ub.
Proof using size_bits_ge kPageSize_pow2 kPageSize_int.
  intros Ha Hab Hno.
  destruct (Z_le_gt_dec b kLargeSizeThreshold) as [Hb|Hb].
  - rewrite !UsableSize_small by lia. unfold kLargeSizeThreshold in *.
    comparisons; eexists _, _; (split; [reflexivity|]); (split; [reflexivity|]); div_lia.
  - rewrite (UsableSize_large b) by lia.
    pose proof (round_up_bounds b kPageSize ltac:(lia)) as [_ Hbb].
    destruct (Z_le_gt_dec a kLargeSizeThreshold) as [Hs|Hs].
    + rewrite UsableSize_small by lia. unfold kLargeSizeThreshold in *.
      comparisons; eexists _, _; (split; [reflexivity|]); (split; [reflexivity|]); div_lia.
    + rewrite (UsableSize_large a) by lia.
      eexists _, _. split; [reflexivity|]. split; [reflexivity|].
      apply Z.mul_le_mono_nonneg_l; [lia|].
      apply Z.div_le_mono; lia.
Qed.

(** X19.  A usable size is its own usable size: asking again for what
    [UsableSize] granted grants the same. *)
Theorem UsableSize_idempotent x :
  0 <= x ->
  (kLargeSizeThreshold < x -> x + kPageSize - 1 < 2 ^ size_bits) ->
  exists u, UsableSize x = Ok u /\ UsableSize u = Ok u.
Proof using size_bits_ge kPageSize_pow2 kPageSize_int.
  intros Hx Hno.
  destruct (Z_le_gt_dec x kLargeSizeThreshold) as [Hs|Hl].
  - rewrite UsableSize_small by lia. unfold kLargeSizeThreshold in *.
    destruct (Z.leb_spec x 512); [|destruct (Z.leb_spec x 1024)].
    + eexists. split; [reflexivity|].
      rewrite UsableSize_small by (unfold kLargeSizeThreshold; div_lia).
      destruct (Z.leb_spec (16 * ((x + 15) / 16)) 512); [|div_lia].
      f_equal. div_lia.
    + exists 1024. split; [reflexivity|].
      apply (UsableSize_small 1024). unfold kLargeSizeThreshold. lia.
    + exists 2048. split; [reflexivity|].
      apply (UsableSize_small 2048). unfold kLargeSizeThreshold. lia.
  - rewrite UsableSize_large by lia.
    set (q := (x + kPageSize - 1) / kPageSize).
    pose proof (round_up_bounds x kPageSize ltac:(lia)) as [_ Hb]. fold q in Hb.
    pose proof (page_multiple_room q ltac:(lia)) as Hroom.
    eexists. split; [reflexivity|].
    rewrite UsableSize_large by lia.
    f_equal. f_equal.
    replace (kPageSize * q + kPageSize - 1) with (q * kPageSize + (kPageSize - 1)) by lia.
    rewrite Z.div_add_l by lia.
    rewrite (Z.div_small (kPageSize - 1)) by lia. lia.
Qed.

End Build.

(** ** The theorems at work: a 32-bit build with 4 KiB pages *)

Lemma ShouldReleasePages_policy_witness :
  exists b end_,
    ShouldReleasePages 32 4096 true (example_state kPageReleaseModeSizeAndEnd) example_run_4 = Ok b
    /\ End 32 4096 true (example_state kPageReleaseModeSizeAndEnd) example_run_4 = Ok end_
    /\ (b = true <-> 0x4000 >= 0x2000 /\ end_ = ptr_add 32 0x40000000 0x8000).
Proof.
  apply (proj2 (proj2 (ShouldReleasePages_policy 32 4096 true
                         (example_state kPageReleaseModeSizeAndEnd) example_run_4))).
  vm_compute. reflexivity.
Defined.

Lemma RoundToBracketSize_bracket_geometry_witness :
  exists r idx,
    RoundToBracketSize 32 true 100 = Ok r
    /\ (100 <= 512 ->
        r mod 16 = 0 /\ 100 <= r < 100 + 16
        /\ idx < kNumOfQuantumSizeBrackets /\ r = 16 * (idx + 1))
    /\ (512 < 100 <= 1024 -> r = 1024)
    /\ (1024 < 100 -> r = 2048)
    /\ 0 <= idx < kNumOfSizeBrackets
    /\ at_index bracketSizes idx = Ok r.
Proof. apply (RoundToBracketSize_bracket_geometry 32 true); lia. Defined.

Lemma SizeToIndexAndBracketSize_24_witness :
  SizeToIndexAndBracketSize 32 true 24 = Ok (1, 32)
  /\ SizeToIndexAndBracketSize 64 false 24 = Ok (1, 32).
Proof.
  split; [apply (SizeToIndexAndBracketSize_24 32 true)
         | apply (SizeToIndexAndBracketSize_24 64 false)]; lia.
Defined.

Lemma SizeToIndexAndBracketSize_agrees_witness :
  exists idx bracket_size,
    SizeToIndexAndBracketSize 32 true 1000 = Ok (idx, bracket_size)
    /\ SizeToIndex 32 true 1000 = Ok idx
    /\ RoundToBracketSize 32 true 1000 = Ok bracket_size.
Proof. apply (SizeToIndexAndBracketSize_agrees 32 true); lia. Defined.

Lemma SizeToIndex_in_range_iff_witness :
  exists idx,
    SizeToIndex 32 true 0 = Ok idx
    /\ (0 <= idx < kNumOfSizeBrackets <-> 1 <= 0)
    /\ (0 = 0 -> idx = 2 ^ 32 - 1).
Proof. apply (SizeToIndex_in_range_iff 32 true); lia. Defined.

Lemma UsableSize_by_threshold_witness :
  (kLargeSizeThreshold < 10000 ->
   UsableSize 32 4096 true 10000 = Ok (RoundUp 32 10000 4096))
  /\ (10000 <= kLargeSizeThreshold ->
      UsableSize 32 4096 true 10000 = RoundToBracketSize 32 true 10000)
  /\ exists u,
       UsableSize 32 4096 true 10000 = Ok u
       /\ u = 4096 * ((10000 + 4096 - 1) / 4096)
       /\ u mod 4096 = 0
       /\ 10000 <= u < 10000 + 4096.
Proof.
  apply (UsableSize_by_threshold 32 4096 true); [lia | lia | reflexivity].
Defined.

Lemma UsableSize_ge_request_witness :
  exists u, UsableSize 32 4096 true 10000 = Ok u /\ 10000 <= u.
Proof.
  apply (UsableSize_ge_request 32 4096 true); [lia | lia | reflexivity | | ].
  - unfold is_size_t. lia.
  - intros _. lia.
Defined.

Lemma SetByteSize_then_ByteSize_witness :
  exists st',
    SetByteSize 32 4096 true (example_state kPageReleaseModeAll) example_run_1 0x3000 = Ok st'
    /\ ByteSize 32 4096 true st' example_run_1 = Ok 0x3000
    /\ free_page_run_size_map_ (rosalloc st')
       = [0; 0; 0x3000; 0; 0x4000; 0; 0; 0; 0; 0; 0; 0; 0; 0; 0; 0]
    /\ memory st' = memory (example_state kPageReleaseModeAll).
Proof.
  destruct (SetByteSize_then_ByteSize 32 4096 true ltac:(lia) ltac:(lia)
              (example_state kPageReleaseModeAll) example_run_1 0x3000 2)
    as (st' & Hset & Hget & Hmap & _ & Hmem & _).
  - unfold is_size_t. lia.
  - reflexivity.
  - vm_compute. reflexivity.
  - simpl. lia.
  - exists st'. rewrite Hmap. auto.
Defined.

Lemma ReleasePages_debug_excludes_first_page_witness :
  exists st',
    ReleasePages 32 4096 true (example_state kPageReleaseModeAll) example_run_4 = Ok st'
    /\ st' = madvise (example_state kPageReleaseModeAll) 0x40005000 0x3000
    /\ (forall a, example_run_4 <= a < example_run_4 + 4096 ->
                  memory st' a = memory (example_state kPageReleaseModeAll) a).
Proof.
  destruct (ReleasePages_debug_excludes_first_page 32 4096 true ltac:(lia) ltac:(lia)
              (example_state kPageReleaseModeAll) example_run_4 0x4000)
    as (st' & b & Hrel & Hb & Hst & _ & Hmem & _).
  - reflexivity.
  - vm_compute. reflexivity.
  - lia.
  - exists st'. split; [exact Hrel|]. split; [|exact Hmem].
    vm_compute in Hb. injection Hb as <-. exact Hst.
Defined.

Lemma ReleasePages_debug_single_page_witness :
  ReleasePages 32 4096 true (example_state kPageReleaseModeAll) example_run_1
  = Ok (example_state kPageReleaseModeAll).
Proof.
  apply (ReleasePages_debug_single_page 32 4096 true); [lia | lia | reflexivity |].
  vm_compute. reflexivity.
Defined.

(** ** The same methods run on the example heap *)

(** Without magic numbers the whole run is advised, one-page runs too. *)
Example ReleasePages_release_build_single_page :
  madvise_calls <$> ReleasePages 32 4096 false (example_state kPageReleaseModeAll) example_run_1
  = Ok [(example_run_1, 0x1000)].
Proof. vm_compute. reflexivity. Qed.

Example ReleasePages_release_build_four_pages :
  madvise_calls <$> ReleasePages 32 4096 false (example_state kPageReleaseModeSizeAndEnd) example_run_4
  = Ok [(example_run_4, 0x4000)].
Proof. vm_compute. reflexivity. Qed.

(** The one-page run is below the threshold of two pages. *)
Example ShouldReleasePages_size_below_threshold :
  ShouldReleasePages 32 4096 true (example_state kPageReleaseModeSize) example_run_1 = Ok false
  /\ ShouldReleasePages 32 4096 true (example_state kPageReleaseModeSize) example_run_4 = Ok true.
Proof. vm_compute. split; reflexivity. Qed.

(** Size 0 passes the DCHECK of [SizeToIndex] but its index wraps; the fused
    classifier stops at its DCHECK in a debug build. *)
Example SizeToIndexAndBracketSize_0 :
  SizeToIndex 32 true 0 = Ok 4294967295
  /\ SizeToIndexAndBracketSize 32 true 0 = Err CheckFailed
  /\ SizeToIndexAndBracketSize 32 false 0 = Ok (4294967295, 0).
Proof. vm_compute. repeat split; reflexivity. Qed.

(** A request within a page of the largest [size_t] rounds to 0. *)
Example UsableSize_wraps :
  UsableSize 32 4096 true (2 ^ 32 - 1) = Ok 0.
Proof. vm_compute. reflexivity. Qed.

(** ** The further properties at work on the example heap *)

Lemma ShouldReleasePages_modes_witness :
  exists larger at_end,
    ShouldReleasePages 32 4096 true
      (with_mode (example_state kPageReleaseModeNone) kPageReleaseModeSize) example_run_1
    = Ok larger
    /\ ShouldReleasePages 32 4096 true
         (with_mode (example_state kPageReleaseModeNone) kPageReleaseModeEnd) example_run_1
       = Ok at_end
    /\ ShouldReleasePages 32 4096 true
         (with_mode (example_state kPageReleaseModeNone) kPageReleaseModeSizeAndEnd) example_run_1
       = Ok (larger && at_end).
Proof.
  destruct (ShouldReleasePages_modes 32 4096 true
              (example_state kPageReleaseModeNone) example_run_1 0x1000)
    as (larger & at_end & H1 & H2 & H3 & _).
  - vm_compute. reflexivity.
  - exists larger, at_end. auto.
Defined.

Lemma ReleasePages_keeps_allocator_witness :
  rosalloc (madvise (example_state kPageReleaseModeAll) 0x40005000 0x3000)
  = rosalloc (example_state kPageReleaseModeAll)
  /\ ByteSize 32 4096 true
       (madvise (example_state kPageReleaseModeAll) 0x40005000 0x3000) example_run_4
     = ByteSize 32 4096 true (example_state kPageReleaseModeAll) example_run_4.
Proof.
  destruct (ReleasePages_keeps_allocator 32 4096 true
              (example_state kPageReleaseModeAll) example_run_4
              (madvise (example_state kPageReleaseModeAll) 0x40005000 0x3000))
    as (H1 & _ & H3 & _).
  - reflexivity.
  - auto.
Defined.

Lemma ReleasePages_mode_None_witness :
  ReleasePages 32 4096 true (example_state kPageReleaseModeNone) example_run_4
  = Ok (example_state kPageReleaseModeNone).
Proof.
  apply (ReleasePages_mode_None 32 4096 true
           (example_state kPageReleaseModeNone) example_run_4 0x4000).
  - reflexivity.
  - vm_compute. reflexivity.
  - intros _. lia.
Defined.


Lemma ReleasePages_debug_below_one_page_witness :
  ReleasePages 32 4096 true (example_state kPageReleaseModeAll) 0x40000000
  = Err CheckFailed.
Proof.
  apply (ReleasePages_debug_below_one_page 32 4096 true
           (example_state kPageReleaseModeAll) 0x40000000 0).
  - reflexivity.
  - vm_compute. reflexivity.
  - lia.
Defined.

Lemma ByteSize_out_of_bounds_witness :
  ByteSize 32 4096 false (example_state kPageReleaseModeAll) 0x40020000 = Err OutOfBounds
  /\ SetByteSize 32 4096 false (example_state kPageReleaseModeAll) 0x40020000 0x1000
     = Err OutOfBounds.
Proof.
  apply (ByteSize_out_of_bounds 32 4096 false
           (example_state kPageReleaseModeAll) 0x40020000 32 0x1000).
  - vm_compute. reflexivity.
  - simpl. lia.
  - reflexivity.
Defined.

Lemma BracketSizeToIndex_IndexToBracketSize_witness :
  exists size,
    IndexToBracketSize true 5 = Ok size
    /\ BracketSizeToIndex 32 true size = Ok 5.
Proof.
  apply (BracketSizeToIndex_IndexToBracketSize 32 true); [lia|].
  unfold kNumOfSizeBrackets. lia.
Defined.

Lemma BracketSizeToIndex_debug_domain_witness :
  ((exists idx, BracketSizeToIndex 32 true 528 = Ok idx) <-> 528 ∈ bracketSizes)
  /\ (forall idx, BracketSizeToIndex 32 true 528 = Ok idx ->
                  0 <= idx < kNumOfSizeBrackets
                  /\ IndexToBracketSize true idx = Ok 528).
Proof.
  apply (BracketSizeToIndex_debug_domain 32 true); [lia | reflexivity].
Defined.

Lemma BracketSizeToIndex_RoundToBracketSize_witness :
  exists bracket_size idx,
    RoundToBracketSize 32 true 24 = Ok bracket_size
    /\ BracketSizeToIndex 32 true bracket_size = Ok idx
    /\ SizeToIndex 32 true 24 = Ok idx.
Proof. apply (BracketSizeToIndex_RoundToBracketSize 32 true); lia. Defined.

Lemma RoundToBracketSize_least_bracket_witness :
  exists r,
    RoundToBracketSize 32 true 600 = Ok r
    /\ r ∈ bracketSizes
    /\ 600 <= r
    /\ (forall s, s ∈ bracketSizes -> 600 <= s -> r <= s).
Proof. apply (RoundToBracketSize_least_bracket 32 true); lia. Defined.

Lemma SizeToIndex_monotone_witness :
  exists ia ib,
    SizeToIndex 32 true 24 = Ok ia /\ SizeToIndex 32 true 600 = Ok ib /\ ia <= ib.
Proof. apply (SizeToIndex_monotone 32 true); lia. Defined.

Lemma SizeToIndex_thread_local_witness :
  exists idx,
    SizeToIndex 32 true 177 = Ok idx
    /\ (idx <= kMaxThreadLocalSizeBracketIdx <-> 177 <= 176).
Proof. apply (SizeToIndex_thread_local 32 true); lia. Defined.

Lemma ToPageMapIndex_of_page_witness :
  ToPageMapIndex 32 4096 true (example_rosalloc kPageReleaseModeAll) (0x40000000 + 3 * 4096)
  = Ok 3
  /\ RoundDownToPageMapIndex 32 4096 true (example_rosalloc kPageReleaseModeAll)
       (0x40000000 + 3 * 4096)
     = Ok 3.
Proof.
  apply (ToPageMapIndex_of_page 32 4096 true ltac:(lia) ltac:(lia)
           (example_rosalloc kPageReleaseModeAll) 3); simpl; lia.
Defined.

Lemma RoundDownToPageMapIndex_within_page_witness :
  RoundDownToPageMapIndex 32 4096 true (example_rosalloc kPageReleaseModeAll) 0x40003abc
  = Ok 3.
Proof.
  apply (RoundDownToPageMapIndex_within_page 32 4096 true ltac:(lia) ltac:(lia)
           (example_rosalloc kPageReleaseModeAll) 0x40003abc 3); simpl; lia.
Defined.

Lemma ToPageMapIndex_debug_domain_witness :
  ToPageMapIndex 32 4096 true (example_rosalloc kPageReleaseModeAll) 0x40003000 = Ok 3
  <-> 0 <= 3 /\ 3 * 4096 < 0x10000 /\ 0x40003000 = 0x40000000 + 3 * 4096.
Proof.
  apply (ToPageMapIndex_debug_domain 32 4096 true ltac:(lia) ltac:(lia)
           (example_rosalloc kPageReleaseModeAll) 0x40003000 3);
    [reflexivity | simpl; lia..].
Defined.

Lemma SetByteSize_other_run_witness :
  exists st',
    SetByteSize 32 4096 true (example_state kPageReleaseModeAll) example_run_1 0x2000 = Ok st'
    /\ ByteSize 32 4096 true st' example_run_4
       = ByteSize 32 4096 true (example_state kPageReleaseModeAll) example_run_4.
Proof.
  eexists. split; [reflexivity|].
  apply (SetByteSize_other_run 32 4096 true ltac:(lia) ltac:(lia)
           (example_state kPageReleaseModeAll) example_run_1 example_run_4 2 4 0x2000).
  - vm_compute. reflexivity.
  - vm_compute. reflexivity.
  - lia.
  - reflexivity.
Defined.


Lemma UsableSize_monotone_witness :
  exists ua ub,
    UsableSize 32 4096 true 100 = Ok ua /\ UsableSize 32 4096 true 10000 = Ok ub /\ ua <= ub.
Proof.
  apply (UsableSize_monotone 32 4096 true); [lia | lia | reflexivity | lia | lia |].
  intros _. lia.
Defined.

Lemma UsableSize_idempotent_witness :
  exists u, UsableSize 32 4096 true 10000 = Ok u /\ UsableSize 32 4096 true u = Ok u.
Proof.
  apply (UsableSize_idempotent 32 4096 true); [lia | lia | reflexivity | lia |].
  intros _. lia.
Defined.

Lemma IndexToBracketSize_SizeToIndex_witness :
  exists idx bracket_size,
    SizeToIndex 32 true 1000 = Ok idx
    /\ IndexToBracketSize true idx = Ok bracket_size
    /\ RoundToBracketSize 32 true 1000 = Ok bracket_size.
Proof. apply (IndexToBracketSize_SizeToIndex 32 true); lia. Defined.
